(* Verification development for restic-to-influxdb (src/main.rs).

   The program reads restic's JSON progress lines on stdin, decodes the
   "status" and "summary" messages with serde, throttles status messages and
   writes one InfluxDB point per accepted message. *)

From Stdlib Require Import ZArith String List Bool Lia.
Import ListNotations.
Open Scope string_scope.
Open Scope Z_scope.
Open Scope list_scope.
Set Warnings "-register-all".

(** * JSON values as serde_json produces them *)

(** serde_json keeps an integer literal as an integer ([NInt]) and every
    other number as an f64 ([NFloat]); the bits of the float are kept opaque
    (its source text), the program only copies them. *)
Inductive num :=
| NInt (z : Z)
| NFloat (repr : string).

(** An object is the member list in source order, duplicates included:
    [serde_json::Value] keeps the last member of a key, a derived
    [Deserialize] rejects a repeated field. *)
Inductive json :=
| JNull
| JBool (b : bool)
| JNum (n : num)
| JStr (s : string)
| JArr (l : list json)
| JObj (m : list (string * json)).

(** One item of [stdin.lock().lines()]: a read error (I/O error or invalid
    UTF-8), a line that is not JSON text, or a line that is JSON text, given
    by the value it denotes. *)
Inductive line :=
| ReadError
| Garbled (text : string)
| Parsed (v : json).

(** [serde_json::from_str::<Value>] on a line. *)
Definition from_str_value (l : line) : option json :=
  match l with
  | Parsed v => Some v
  | _ => None
  end.

(** ** The [Value] API used by [main] *)

Definition as_object (v : json) : option (list (string * json)) :=
  match v with JObj m => Some m | _ => None end.

Definition as_str (v : json) : option string :=
  match v with JStr s => Some s | _ => None end.

(** [Map::remove] on the map built from the members: the last member of the
    key wins. *)
Fixpoint map_remove (k : string) (m : list (string * json)) : option json :=
  match m with
  | [] => None
  | (k', v) :: m' =>
      match map_remove k m' with
      | Some w => Some w
      | None => if String.eqb k k' then Some v else None
      end
  end.

(** * serde's derived [Deserialize] for the message structs *)

Definition U64_MAX : Z := 2 ^ 64 - 1.

Definition de_u64 (v : json) : option Z :=
  match v with
  | JNum (NInt z) => if (0 <=? z) && (z <=? U64_MAX) then Some z else None
  | _ => None
  end.

(** f64 accepts every JSON number. *)
Definition de_f64 (v : json) : option num :=
  match v with JNum n => Some n | _ => None end.

Definition de_string (v : json) : option string := as_str v.

Fixpoint de_vec_string (l : list json) : option (list string) :=
  match l with
  | [] => Some []
  | x :: l' =>
      match de_string x, de_vec_string l' with
      | Some s, Some r => Some (s :: r)
      | _, _ => None
      end
  end.

Definition de_vec (v : json) : option (list string) :=
  match v with JArr l => de_vec_string l | _ => None end.

(** [Option<T>]: [null] is [None], any other value goes through [T]. *)
Definition de_option {A} (de : json -> option A) (v : json) : option (option A) :=
  match v with
  | JNull => Some None
  | _ => option_map Some (de v)
  end.

(** The members named [k]: none (missing), one, or a duplicate field. *)
Inductive lookup := Missing | Found (v : json) | Duplicate.

Fixpoint field (k : string) (m : list (string * json)) : lookup :=
  match m with
  | [] => Missing
  | (k', v) :: m' =>
      match field k m' with
      | Missing => if String.eqb k k' then Found v else Missing
      | Found w => if String.eqb k k' then Duplicate else Found w
      | Duplicate => Duplicate
      end
  end.

(** A required field: missing or repeated is an error. *)
Definition req {A} (de : json -> option A) (k : string) (m : list (string * json))
  : option A :=
  match field k m with
  | Found v => de v
  | _ => None
  end.

(** An [Option<T>] field: serde defaults a missing one to [None]. *)
Definition opt {A} (de : json -> option A) (k : string) (m : list (string * json))
  : option (option A) :=
  match field k m with
  | Missing => Some None
  | Found v => de_option de v
  | Duplicate => None
  end.

Notation "'let*' x := e1 'in' e2" :=
  (match e1 with Some x => e2 | None => None end)
  (at level 200, x name, e1 at level 100, e2 at level 200).

(** * The message structs *)

Record StatusMessage := {
  sm_message_type : string;
  sm_seconds_elapsed : Z;
  sm_seconds_remaining : option Z;
  sm_percent_done : num;
  sm_total_files : Z;
  sm_files_done : Z;
  sm_total_bytes : Z;
  sm_bytes_done : Z;
  sm_error_count : option Z;
  sm_current_files : option (list string)
}.

(** [serde_json::from_str::<StatusMessage>(&line)] on an object. *)
Definition de_StatusMessage (m : list (string * json)) : option StatusMessage :=
  let* message_type := req de_string "message_type" m in
  let* seconds_elapsed := req de_u64 "seconds_elapsed" m in
  let* seconds_remaining := opt de_u64 "seconds_remaining" m in
  let* percent_done := req de_f64 "percent_done" m in
  let* total_files := req de_u64 "total_files" m in
  let* files_done := req de_u64 "files_done" m in
  let* total_bytes := req de_u64 "total_bytes" m in
  let* bytes_done := req de_u64 "bytes_done" m in
  let* error_count := opt de_u64 "error_count" m in
  let* current_files := opt de_vec "current_files" m in
  Some {| sm_message_type := message_type;
          sm_seconds_elapsed := seconds_elapsed;
          sm_seconds_remaining := seconds_remaining;
          sm_percent_done := percent_done;
          sm_total_files := total_files;
          sm_files_done := files_done;
          sm_total_bytes := total_bytes;
          sm_bytes_done := bytes_done;
          sm_error_count := error_count;
          sm_current_files := current_files |}.

(** [StatusMessageOut]: its [current_files] field is commented out in the
    source. *)
Record StatusMessageOut := {
  so_time : Z;
  so_message_type : string;
  so_seconds_elapsed : Z;
  so_seconds_remaining : Z;
  so_percent_done : num;
  so_total_files : Z;
  so_files_done : Z;
  so_total_bytes : Z;
  so_bytes_done : Z;
  so_error_count : Z
}.

Record SummaryMessage := {
  su_message_type : string;
  su_files_new : Z;
  su_files_changed : Z;
  su_files_unmodified : Z;
  su_dirs_new : Z;
  su_dirs_changed : Z;
  su_dirs_unmodified : Z;
  su_data_blobs : Z;
  su_tree_blobs : Z;
  su_data_added : Z;
  su_total_files_processed : Z;
  su_total_bytes_processed : Z;
  su_total_duration : num;
  su_snapshot_id : string
}.

Definition de_SummaryMessage (m : list (string * json)) : option SummaryMessage :=
  let* message_type := req de_string "message_type" m in
  let* files_new := req de_u64 "files_new" m in
  let* files_changed := req de_u64 "files_changed" m in
  let* files_unmodified := req de_u64 "files_unmodified" m in
  let* dirs_new := req de_u64 "dirs_new" m in
  let* dirs_changed := req de_u64 "dirs_changed" m in
  let* dirs_unmodified := req de_u64 "dirs_unmodified" m in
  let* data_blobs := req de_u64 "data_blobs" m in
  let* tree_blobs := req de_u64 "tree_blobs" m in
  let* data_added := req de_u64 "data_added" m in
  let* total_files_processed := req de_u64 "total_files_processed" m in
  let* total_bytes_processed := req de_u64 "total_bytes_processed" m in
  let* total_duration := req de_f64 "total_duration" m in
  let* snapshot_id := req de_string "snapshot_id" m in
  Some {| su_message_type := message_type;
          su_files_new := files_new;
          su_files_changed := files_changed;
          su_files_unmodified := files_unmodified;
          su_dirs_new := dirs_new;
          su_dirs_changed := dirs_changed;
          su_dirs_unmodified := dirs_unmodified;
          su_data_blobs := data_blobs;
          su_tree_blobs := tree_blobs;
          su_data_added := data_added;
          su_total_files_processed := total_files_processed;
          su_total_bytes_processed := total_bytes_processed;
          su_total_duration := total_duration;
          su_snapshot_id := snapshot_id |}.

(** [SummaryMessageOut] has the fields of [SummaryMessage] plus [time]. *)
Record SummaryMessageOut := {
  uo_time : Z;
  uo_summary : SummaryMessage
}.

(** * InfluxDB points *)

Inductive field_value :=
| FU64 (z : Z)
| FF64 (n : num)
| FStr (s : string).

(** The [WriteQuery] built by [into_query]: the derived [InfluxDbWriteable]
    turns [time] into the timestamp and every other field into a field. *)
Record point := {
  measurement : string;
  timestamp : Z;
  fields : list (string * field_value)
}.

Definition status_into_query (d : StatusMessageOut) (name : string) : point :=
  {| measurement := name;
     timestamp := so_time d;
     fields :=
       [("message_type", FStr (so_message_type d));
        ("seconds_elapsed", FU64 (so_seconds_elapsed d));
        ("seconds_remaining", FU64 (so_seconds_remaining d));
        ("percent_done", FF64 (so_percent_done d));
        ("total_files", FU64 (so_total_files d));
        ("files_done", FU64 (so_files_done d));
        ("total_bytes", FU64 (so_total_bytes d));
        ("bytes_done", FU64 (so_bytes_done d));
        ("error_count", FU64 (so_error_count d))] |}.

Definition summary_into_query (o : SummaryMessageOut) (name : string) : point :=
  let s := uo_summary o in
  {| measurement := name;
     timestamp := uo_time o;
     fields :=
       [("message_type", FStr (su_message_type s));
        ("files_new", FU64 (su_files_new s));
        ("files_changed", FU64 (su_files_changed s));
        ("files_unmodified", FU64 (su_files_unmodified s));
        ("dirs_new", FU64 (su_dirs_new s));
        ("dirs_changed", FU64 (su_dirs_changed s));
        ("dirs_unmodified", FU64 (su_dirs_unmodified s));
        ("data_blobs", FU64 (su_data_blobs s));
        ("tree_blobs", FU64 (su_tree_blobs s));
        ("data_added", FU64 (su_data_added s));
        ("total_files_processed", FU64 (su_total_files_processed s));
        ("total_bytes_processed", FU64 (su_total_bytes_processed s));
        ("total_duration", FF64 (su_total_duration s));
        ("snapshot_id", FStr (su_snapshot_id s))] |}.

(** * Clock readings and chrono's date-time arithmetic *)

(** Instants are nanoseconds since the Unix epoch. A [DateTime<Utc>] lies
    between midnight of chrono's [NaiveDate::MIN] (January 1 of year
    -262143) and the last nanosecond of [NaiveDate::MAX] (December 31 of
    year 262142). *)
Definition DT_MIN : Z := -8334601315200 * 1000000000.
Definition DT_MAX : Z := 8210266876799 * 1000000000 + 999999999.

Definition dt_in_range (t : Z) : bool := (DT_MIN <=? t) && (t <=? DT_MAX).

(** [Duration::from_secs]; [interval] is the [u64] of the command line. *)
Definition from_secs (n : Z) : Z := n * 1000000000.

(** [TimeDelta::MAX] is [i64::MAX] milliseconds: [TimeDelta::from_std]
    fails on a [Duration] of more whole seconds than this. *)
Definition TD_MAX_SECS : Z := 9223372036854775.

(** [Utc::now()] on the system clock reading [clock]:
    [duration_since(UNIX_EPOCH).expect(..)] fails before the epoch, and the
    unwrapped conversion to a [DateTime] fails past chrono's range. *)
Definition utc_ok (clock : Z) : bool := (0 <=? clock) && (clock <=? DT_MAX).

Definition utc_now (clock : Z) : option Z :=
  if utc_ok clock then Some clock else None.

(** [SystemTime::now().into()] as a [DateTime<Utc>]: the conversion
    unwraps [Utc.timestamp_opt(..)], on either side of the epoch. *)
Definition system_time_into (clock : Z) : option Z :=
  if dt_in_range clock then Some clock else None.

(** [t + Duration::from_secs(n)] and [t - Duration::from_secs(n)] on a
    [DateTime<Utc>]: [TimeDelta::from_std(..).expect(..)], then
    [checked_add_signed(..)] or [checked_sub_signed(..)] and [.expect(..)]. *)
Definition dt_add_secs (t n : Z) : option Z :=
  if n <=? TD_MAX_SECS then
    if dt_in_range (t + from_secs n) then Some (t + from_secs n) else None
  else None.

Definition dt_sub_secs (t n : Z) : option Z :=
  if n <=? TD_MAX_SECS then
    if dt_in_range (t - from_secs n) then Some (t - from_secs n) else None
  else None.

(** * The main loop *)

(** One line as the loop sees it, with the system clock readings of its
    iteration: the [Utc::now()] of the throttle check (line 134), the
    [Utc::now()] assigned to [print_time] (line 137), the
    [SystemTime::now()] that stamps the point (line 145 or 172), and
    whether the InfluxDB write of the iteration, if any, succeeds. A reading
    the iteration does not reach plays no part. *)
Record event := {
  input : line;
  now_check : Z;
  now_set : Z;
  now_stamp : Z;
  write_ok : bool
}.

(** Observable effects: the [println!("-> {:?}", ..)] traces and the points
    written by [client.query]. *)
Inductive effect :=
| PrintStatus (d : StatusMessageOut)
| PrintSummary (s : SummaryMessage)
| Written (p : point).

(** How the process stops before the end of input: a panic of [main] or of
    an [unwrap] in it, a panic inside chrono (clock conversion or date-time
    overflow; its message depends on the chrono release), or [main]
    returning the sink's error through [?]. *)
Inductive halt :=
| Panic (msg : string)
| ChronoPanic
| SinkError.

(** One iteration of the [for] loop, from the value of [print_time]. *)
Inductive step_result :=
| Next (print_time : Z) (effs : list effect)
| Halt (why : halt) (print_time : Z) (effs : list effect).

Definition unwrap_none : string := "called `Option::unwrap()` on a `None` value".
Definition unwrap_err : string := "called `Result::unwrap()` on an `Err` value".

(** [client.query(&query).await?] after the trace [pre]. *)
Definition query (p : point) (ok : bool) (print_time : Z) (pre : list effect)
  : step_result :=
  if ok then Next print_time (pre ++ [Written p]) else Halt SinkError print_time pre.

Definition status_out (t : Z) (status : StatusMessage) : StatusMessageOut :=
  {| so_time := t;
     so_message_type := sm_message_type status;
     so_seconds_elapsed := sm_seconds_elapsed status;
     so_seconds_remaining := match sm_seconds_remaining status with
                             | Some x => x | None => 0 end;
     so_percent_done := sm_percent_done status;
     so_total_files := sm_total_files status;
     so_files_done := sm_files_done status;
     so_total_bytes := sm_total_bytes status;
     so_bytes_done := sm_bytes_done status;
     so_error_count := match sm_error_count status with
                       | Some x => x | None => 0 end |}.

Definition step (interval print_time : Z) (ev : event) : step_result :=
  match input ev with
  | ReadError => Halt (Panic unwrap_err) print_time []
  | l =>
    match from_str_value l with
    | None => Next print_time []
    | Some message =>
      match as_object message with
      | None => Halt (Panic unwrap_none) print_time []
      | Some m =>
        match map_remove "message_type" m with
        | None => Halt (Panic unwrap_none) print_time []
        | Some tv =>
          match as_str tv with
          | None => Halt (Panic unwrap_none) print_time []
          | Some type_ =>
            if String.eqb type_ "status" then
              match utc_now (now_check ev) with
              | None => Halt ChronoPanic print_time []
              | Some now =>
                match dt_add_secs print_time interval with
                | None => Halt ChronoPanic print_time []
                | Some limit =>
                  if now <? limit then Next print_time []
                  else
                    match utc_now (now_set ev) with
                    | None => Halt ChronoPanic print_time []
                    | Some print_time =>
                      match de_StatusMessage m with
                      | None => Halt (Panic "Parse error") print_time []
                      | Some status =>
                        match system_time_into (now_stamp ev) with
                        | None => Halt ChronoPanic print_time []
                        | Some time =>
                          let data := status_out time status in
                          query (status_into_query data "status_message") (write_ok ev)
                                print_time [PrintStatus data]
                        end
                      end
                    end
                end
              end
            else if String.eqb type_ "summary" then
              match de_SummaryMessage m with
              | None => Halt (Panic "Parse error") print_time []
              | Some summary =>
                match system_time_into (now_stamp ev) with
                | None => Halt ChronoPanic print_time [PrintSummary summary]
                | Some time =>
                  let out := {| uo_time := time; uo_summary := summary |} in
                  query (summary_into_query out "summary_message") (write_ok ev)
                        print_time [PrintSummary summary]
                end
              end
            else if String.eqb type_ "error" then Next print_time []
            else Next print_time []
          end
        end
      end
    end
  end.

(** The loop over the lines: the effects, how it stopped early (if it did),
    and the last value of [print_time]. *)
Record run_result := {
  run_effects : list effect;
  run_halt : option halt;
  run_print_time : Z
}.

Fixpoint run (interval print_time : Z) (evs : list event) : run_result :=
  match evs with
  | [] => {| run_effects := []; run_halt := None; run_print_time := print_time |}
  | ev :: evs' =>
    match step interval print_time ev with
    | Next pt effs =>
      let r := run interval pt evs' in
      {| run_effects := effs ++ run_effects r; run_halt := run_halt r;
         run_print_time := run_print_time r |}
    | Halt why pt effs =>
      {| run_effects := effs; run_halt := Some why; run_print_time := pt |}
    end
  end.

(** [let mut print_time = Utc::now() - Duration::from_secs(cli.interval);]
    on the start-up clock reading [start]. *)
Definition init_print_time (start interval : Z) : option Z :=
  match utc_now start with
  | None => None
  | Some now => dt_sub_secs now interval
  end.

(** When the seed of [print_time] panics no line is read; the record then
    keeps [start] in place of the [print_time] that was never set. *)
Definition main (interval start : Z) (evs : list event) : run_result :=
  match init_print_time start interval with
  | Some print_time => run interval print_time evs
  | None => {| run_effects := []; run_halt := Some ChronoPanic; run_print_time := start |}
  end.

(** * Views used by the statements *)

Fixpoint written (effs : list effect) : list point :=
  match effs with
  | [] => []
  | Written p :: effs' => p :: written effs'
  | _ :: effs' => written effs'
  end.

Definition is_status_point (p : point) : bool := String.eqb (measurement p) "status_message".

Definition status_times (effs : list effect) : list Z :=
  map timestamp (filter is_status_point (written effs)).

Definition step_effects (r : step_result) : list effect :=
  match r with Next _ effs => effs | Halt _ _ effs => effs end.

(** The discriminant [main] reads from a line, if it reads one. *)
Definition discriminant (l : line) : option string :=
  match l with
  | Parsed (JObj m) =>
    match map_remove "message_type" m with Some (JStr s) => Some s | _ => None end
  | _ => None
  end.

Definition is_status_line (l : line) : bool :=
  match discriminant l with Some s => String.eqb s "status" | None => false end.

(** The throttle check of a status iteration when neither the clock
    reading nor the sum panics: the line is dropped, or it passes. *)
Definition throttled (interval pt : Z) (e : event) : bool :=
  match utc_now (now_check e), dt_add_secs pt interval with
  | Some now, Some limit => now <? limit
  | _, _ => false
  end.

Definition passes_check (interval pt : Z) (e : event) : bool :=
  match utc_now (now_check e), dt_add_secs pt interval with
  | Some now, Some limit => negb (now <? limit)
  | _, _ => false
  end.

(** The iterations of a run that write a status point, in order. *)
Fixpoint status_iterations (interval pt : Z) (evs : list event) : list event :=
  match evs with
  | [] => []
  | e :: evs' =>
    match step interval pt e with
    | Next pt' effs =>
      (if existsb is_status_point (written effs) then [e] else [])
        ++ status_iterations interval pt' evs'
    | Halt _ _ _ => []
    end
  end.

(** The check reading of each iteration no earlier than [lo] for the first,
    and than the previous iteration's [print_time] reading plus [g] for the
    others. *)
Fixpoint checks_spaced (g lo : Z) (es : list event) : Prop :=
  match es with
  | [] => True
  | e :: es' => lo <= now_check e /\ checks_spaced g (now_set e + g) es'
  end.



(** A point field read back as the JSON value it was decoded from. *)
Definition field_json (v : field_value) : json :=
  match v with
  | FU64 z => JNum (NInt z)
  | FF64 n => JNum n
  | FStr s => JStr s
  end.

Definition point_members (p : point) : list (string * json) :=
  map (fun kv => (fst kv, field_json (snd kv))) (fields p).

(** Member names the two message structs read. *)
Definition known_keys : list string :=
  ["message_type"; "seconds_elapsed"; "seconds_remaining"; "percent_done";
   "total_files"; "files_done"; "total_bytes"; "bytes_done"; "error_count";
   "current_files"; "files_new"; "files_changed"; "files_unmodified"; "dirs_new";
   "dirs_changed"; "dirs_unmodified"; "data_blobs"; "tree_blobs"; "data_added";
   "total_files_processed"; "total_bytes_processed"; "total_duration"; "snapshot_id"].



(** The members [StatusMessage] and [SummaryMessage] read, and those of
    them read as u64 (required or optional). *)
Definition status_keys : list string :=
  ["message_type"; "seconds_elapsed"; "seconds_remaining"; "percent_done";
   "total_files"; "files_done"; "total_bytes"; "bytes_done"; "error_count";
   "current_files"].

Definition status_u64_keys : list string :=
  ["seconds_elapsed"; "seconds_remaining"; "total_files"; "files_done";
   "total_bytes"; "bytes_done"; "error_count"].

Definition summary_keys : list string :=
  ["message_type"; "files_new"; "files_changed"; "files_unmodified"; "dirs_new";
   "dirs_changed"; "dirs_unmodified"; "data_blobs"; "tree_blobs"; "data_added";
   "total_files_processed"; "total_bytes_processed"; "total_duration"; "snapshot_id"].

Definition summary_u64_keys : list string :=
  ["files_new"; "files_changed"; "files_unmodified"; "dirs_new"; "dirs_changed";
   "dirs_unmodified"; "data_blobs"; "tree_blobs"; "data_added";
   "total_files_processed"; "total_bytes_processed"].



(** * Sample lines *)

Definition u (z : Z) : json := JNum (NInt z).

(** The status line of the spec's example (no [seconds_remaining],
    [error_count] or [current_files]). *)
Definition status_line_members : list (string * json) :=
  [("message_type", JStr "status"); ("seconds_elapsed", u 34);
   ("percent_done", JNum (NFloat "1.0")); ("total_files", u 10);
   ("total_bytes", u 1000); ("files_done", u 10); ("bytes_done", u 1000)].

Definition status_line : line := Parsed (JObj status_line_members).

(** The same line without [files_done]. *)
Definition status_no_files_done_members : list (string * json) :=
  [("message_type", JStr "status"); ("seconds_elapsed", u 34);
                ("percent_done", JNum (NFloat "1.0")); ("total_files", u 10);
                ("total_bytes", u 1000); ("bytes_done", u 1000)].

Definition status_line_no_files_done : line :=
  Parsed (JObj status_no_files_done_members).

(** The record [status_line] decodes to. *)
Definition status_sample : StatusMessage :=
  {| sm_message_type := "status"; sm_seconds_elapsed := 34; sm_seconds_remaining := None;
     sm_percent_done := NFloat "1.0"; sm_total_files := 10; sm_files_done := 10;
     sm_total_bytes := 1000; sm_bytes_done := 1000; sm_error_count := None;
     sm_current_files := None |}.




Definition summary_line_members : list (string * json) :=
  [("message_type", JStr "summary"); ("files_new", u 4); ("files_changed", u 10);
   ("files_unmodified", u 2331042); ("dirs_new", u 0); ("dirs_changed", u 15);
   ("dirs_unmodified", u 888795); ("data_blobs", u 28); ("tree_blobs", u 14);
   ("data_added", u 27699291); ("total_files_processed", u 2331056);
   ("total_bytes_processed", u 2306593302132);
   ("total_duration", JNum (NFloat "555.877498816"));
   ("snapshot_id", JStr "59717ddd")].

Definition summary_line : line := Parsed (JObj summary_line_members).


Definition error_line : line :=
  Parsed (JObj [("message_type", JStr "error"); ("during", JStr "scan");
                ("item", JStr "/home/a")]).

(** Valid JSON without a [message_type] member. *)
Definition untyped_line : line := Parsed (JObj [("seconds_elapsed", u 34)]).

(** A line whose iteration reads the clock once, at [t], and writes. *)
Definition ev (t : Z) (l : line) : event :=
  {| input := l; now_check := t; now_set := t; now_stamp := t; write_ok := true |}.

(** A line whose iteration reads the clock at [t] for the check, 1 us later
    for [print_time] and 2 us later for the stamp. *)
Definition ev_lag (t : Z) (l : line) : event :=
  {| input := l; now_check := t; now_set := t + 1000; now_stamp := t + 2000;
     write_ok := true |}.

(** 2023-11-14, 22:13:20 UTC. *)
Definition t0 : Z := from_secs 1700000000.

(** A status line every second from t = 0 s to t = 24 s. *)
Definition every_second_25 : list event :=
  map (fun k => ev (from_secs (Z.of_nat k)) status_line) (seq 0 25).

Definition every_second_25_lagged : list event :=
  map (fun k => ev_lag (from_secs (Z.of_nat k)) status_line) (seq 0 25).

(** Two status lines: the first stamped 5 ms after its [print_time]
    reading, the second read 10 s after that. *)
Definition two_status_lines : list event :=
  [{| input := status_line; now_check := 0; now_set := 0; now_stamp := 5000000;
      write_ok := true |};
   ev (from_secs 10) status_line].

(** A summary whose [data_added] does not fit a u64. *)
Definition big_summary_members : list (string * json) :=
  map (fun kv => if String.eqb (fst kv) "data_added" then ("data_added", u (2 ^ 64))
                 else kv) summary_line_members.

(** A status line with [seconds_remaining] set to [null]. *)
Definition status_null_members : list (string * json) :=
  status_line_members ++ [("seconds_remaining", JNull); ("error_count", u 3)].

(** * Properties of one iteration *)

Lemma as_object_Some (v : json) m : as_object v = Some m -> v = JObj m.
Proof. destruct v; simpl; congruence. Qed.

Lemma as_str_Some (v : json) s : as_str v = Some s -> v = JStr s.
Proof. destruct v; simpl; congruence. Qed.

Lemma utc_now_Some (c t : Z) : utc_now c = Some t -> t = c /\ utc_ok c = true.
Proof. unfold utc_now; destruct (utc_ok c); [intros [= ->]; auto | discriminate]. Qed.

Lemma utc_ok_now (c : Z) : utc_ok c = true -> utc_now c = Some c.
Proof. unfold utc_now; intros ->; reflexivity. Qed.

Lemma system_time_into_Some (c t : Z) : system_time_into c = Some t -> t = c.
Proof. unfold system_time_into; destruct (dt_in_range c); congruence. Qed.


Lemma dt_add_secs_Some (t n l : Z) : dt_add_secs t n = Some l -> l = t + from_secs n.
Proof.
  unfold dt_add_secs; destruct (n <=? TD_MAX_SECS); [|discriminate].
  destruct (dt_in_range (t + from_secs n)); congruence.
Qed.


Lemma passes_check_spec (interval pt : Z) (e : event) :
  passes_check interval pt e = true ->
  exists now limit, utc_now (now_check e) = Some now /\
    dt_add_secs pt interval = Some limit /\ (now <? limit) = false.
Proof.
  unfold passes_check.
  destruct (utc_now (now_check e)) as [n|]; [|discriminate].
  destruct (dt_add_secs pt interval) as [l|]; [|discriminate].
  intro H; apply negb_true_iff in H; eauto.
Qed.

Lemma passes_check_le (interval pt : Z) (e : event) :
  passes_check interval pt e = true -> pt + from_secs interval <= now_check e.
Proof.
  intro H; destruct (passes_check_spec _ _ _ H) as [n [l [E1 [E2 E3]]]].
  apply utc_now_Some in E1 as [-> _]; apply dt_add_secs_Some in E2 as ->.
  apply Z.ltb_ge in E3; exact E3.
Qed.

Ltac destr_step H :=
  unfold step, query, from_str_value in H;
  repeat (match type of H with
          | context[match ?x with _ => _ end] =>
              let E := fresh "E" in destruct x eqn:E
          end);
  try discriminate.

Ltac ltb_facts :=
  repeat match goal with
         | Hl : (_ <? _) = false |- _ => apply Z.ltb_ge in Hl
         | Hl : (_ <? _) = true |- _ => apply Z.ltb_lt in Hl
         end.

(** The facts a status or summary branch of [step] gathers on its way. *)
Ltac branch_facts :=
  repeat match goal with
         | Hv : as_object _ = Some _ |- _ => apply as_object_Some in Hv; subst
         | Hj : as_str _ = Some _ |- _ => apply as_str_Some in Hj; subst
         | Hq : String.eqb _ _ = true |- _ => apply String.eqb_eq in Hq; subst
         | Hu : utc_now _ = Some _ |- _ =>
             let Hok := fresh "Hok" in apply utc_now_Some in Hu as [? Hok]; subst
         | Hs : system_time_into _ = Some _ |- _ => apply system_time_into_Some in Hs; subst
         end.

Lemma status_times_app (a b : list effect) :
  status_times (a ++ b) = status_times a ++ status_times b.
Proof.
  unfold status_times.
  induction a as [|x a IH]; [reflexivity|].
  destruct x; simpl; auto.
  destruct (is_status_point p); simpl; congruence.
Qed.

Lemma discriminant_status (m : list (string * json)) :
  map_remove "message_type" m = Some (JStr "status") ->
  is_status_line (Parsed (JObj m)) = true.
Proof. unfold is_status_line, discriminant; intros ->; reflexivity. Qed.

(** An iteration that lets the loop go on either keeps [print_time] and
    writes no status point, or is a status line past the check that moves
    [print_time] to its second clock reading and writes exactly one status
    point, stamped with its third. *)
Lemma step_next_cases (interval pt : Z) (e : event) (pt' : Z) (effs : list effect) :
  step interval pt e = Next pt' effs ->
  (pt' = pt /\ status_times effs = []) \/
  (pt' = now_set e /\ is_status_line (input e) = true /\
   passes_check interval pt e = true /\ status_times effs = [now_stamp e]).
Proof.
  intro H; destr_step H; injection H as <- <-; auto.
  right; branch_facts; split; [reflexivity|split; [|split]].
  - apply discriminant_status; assumption.
  - unfold passes_check; rewrite utc_ok_now by assumption.
    match goal with Ha : dt_add_secs _ _ = Some _ |- _ => rewrite Ha end.
    match goal with Hl : (_ <? _) = false |- _ => rewrite Hl end; reflexivity.
  - reflexivity.
Qed.

(** In a status branch past the check: the line is a status line and the
    check passed. *)
Ltac status_branch :=
  try match goal with Hi : input ?e = _ |- context[input ?e] => rewrite Hi end;
  split; [apply discriminant_status; assumption|];
  unfold passes_check; rewrite utc_ok_now by assumption;
  match goal with Ha : dt_add_secs _ _ = Some _ |- _ => rewrite Ha end;
  match goal with Hl : (_ <? _) = false |- _ => rewrite Hl end; reflexivity.

(** An iteration that stops the loop writes no point. *)
Lemma step_halt_written (interval pt : Z) (e : event) why pt' effs :
  step interval pt e = Halt why pt' effs -> written effs = [].
Proof. intro H; destr_step H; injection H as <- <- <-; reflexivity. Qed.

(** An iteration that stops the loop and has moved [print_time] is a status
    line past the check, and [print_time] is its second clock reading. *)
Lemma step_halt_print_time (interval pt : Z) (e : event) why pt' effs :
  step interval pt e = Halt why pt' effs -> pt' <> pt ->
  (is_status_line (input e) = true /\ passes_check interval pt e = true) /\
  pt' = now_set e.
Proof.
  intros H Hne; destr_step H; injection H as <- <- <-; try congruence.
  all: branch_facts; split; [status_branch|reflexivity].
Qed.

(** A status line whose check reading is before [print_time + interval] is
    skipped. *)
Lemma step_status_throttled (interval pt : Z) (e : event) :
  is_status_line (input e) = true -> throttled interval pt e = true ->
  step interval pt e = Next pt [].
Proof.
  unfold is_status_line, discriminant, throttled, step; intros Hs Hlt.
  destruct (input e) as [| |v]; try discriminate.
  destruct v; try discriminate; cbn.
  destruct (map_remove "message_type" m) as [j|]; try discriminate.
  destruct j; try discriminate; cbn.
  rewrite Hs.
  destruct (utc_now (now_check e)) as [n|]; [|discriminate].
  destruct (dt_add_secs pt interval) as [l|]; [|discriminate].
  rewrite Hlt; reflexivity.
Qed.

(** A status line whose [print_time + interval] is past chrono's range
    panics in the check. *)
Lemma step_status_overflow (interval pt : Z) (e : event) :
  is_status_line (input e) = true -> utc_ok (now_check e) = true ->
  dt_add_secs pt interval = None -> step interval pt e = Halt ChronoPanic pt [].
Proof.
  unfold is_status_line, discriminant, step; intros Hs Hc Ha.
  destruct (input e) as [| |v]; try discriminate.
  destruct v; try discriminate; cbn.
  destruct (map_remove "message_type" m) as [j|]; try discriminate.
  destruct j; try discriminate; cbn.
  rewrite Hs, (utc_ok_now _ Hc), Ha; reflexivity.
Qed.

Lemma run_cons_next (interval pt : Z) (e : event) (evs : list event) :
  step interval pt e = Next pt [] -> run interval pt (e :: evs) = run interval pt evs.
Proof. intro H; simpl; rewrite H; destruct (run interval pt evs); reflexivity. Qed.

Lemma existsb_filter {A} (f : A -> bool) (l : list A) :
  existsb f l = match filter f l with [] => false | _ => true end.
Proof.
  induction l as [|x l IH]; [reflexivity|]; simpl.
  destruct (f x); [reflexivity|exact IH].
Qed.

Lemma status_iteration_of_step (interval pt : Z) (e : event) pt' effs :
  step interval pt e = Next pt' effs ->
  (if existsb is_status_point (written effs) then [e] else []) =
  match status_times effs with [] => [] | _ => [e] end.
Proof.
  intros _; rewrite existsb_filter; unfold status_times.
  destruct (filter is_status_point (written effs)); reflexivity.
Qed.

(** The status points of a run carry the stamps of the iterations that
    wrote them. *)
Lemma run_status_stamps (interval pt : Z) (evs : list event) :
  status_times (run_effects (run interval pt evs)) =
  map now_stamp (status_iterations interval pt evs).
Proof.
  revert pt; induction evs as [|e evs IH]; intro pt; [reflexivity|].
  simpl; destruct (step interval pt e) as [pt' effs|why pt' effs] eqn:Hs; simpl.
  - rewrite status_times_app, (status_iteration_of_step _ _ _ _ _ Hs), IH.
    destruct (step_next_cases _ _ _ _ _ Hs) as [[_ ->]|[_ [_ [_ ->]]]]; reflexivity.
  - unfold status_times; rewrite (step_halt_written _ _ _ _ _ _ Hs); reflexivity.
Qed.

Lemma run_checks_spaced (interval pt : Z) (evs : list event) :
  checks_spaced (from_secs interval) (pt + from_secs interval)
                (status_iterations interval pt evs).
Proof.
  revert pt; induction evs as [|e evs IH]; intro pt; [exact I|].
  simpl; destruct (step interval pt e) as [pt' effs|why pt' effs] eqn:Hs; [|exact I].
  rewrite (status_iteration_of_step _ _ _ _ _ Hs).
  destruct (step_next_cases _ _ _ _ _ Hs) as [[-> ->]|[-> [_ [Hc ->]]]].
  - apply IH.
  - simpl; split; [exact (passes_check_le _ _ _ Hc)|apply IH].
Qed.


Lemma discriminant_Parsed (l : line) (s : string) :
  discriminant l = Some s ->
  exists m, l = Parsed (JObj m) /\ map_remove "message_type" m = Some (JStr s).
Proof.
  unfold discriminant; destruct l as [| |v]; try discriminate.
  destruct v; try discriminate.
  destruct (map_remove "message_type" m) as [j|] eqn:Em; try discriminate.
  destruct j; try discriminate; intros [= <-]; eauto.
Qed.





Lemma step_summary_decode_none (interval pt : Z) (e : event) (m : list (string * json)) :
  input e = Parsed (JObj m) -> map_remove "message_type" m = Some (JStr "summary") ->
  de_SummaryMessage m = None ->
  step interval pt e = Halt (Panic "Parse error") pt [].
Proof.
  intros Hin Ht Hd; unfold step; rewrite Hin; cbn [from_str_value as_object].
  rewrite Ht; cbn [as_str String.eqb Ascii.eqb Bool.eqb andb]; rewrite Hd; reflexivity.
Qed.

Lemma step_status_decode_none (interval pt : Z) (e : event) (m : list (string * json)) :
  input e = Parsed (JObj m) -> map_remove "message_type" m = Some (JStr "status") ->
  passes_check interval pt e = true -> utc_ok (now_set e) = true ->
  de_StatusMessage m = None ->
  step interval pt e = Halt (Panic "Parse error") (now_set e) [].
Proof.
  intros Hin Ht Hck Hset Hd.
  destruct (passes_check_spec _ _ _ Hck) as [n [l [E1 [E2 E3]]]].
  unfold step; rewrite Hin; cbn [from_str_value as_object].
  rewrite Ht; cbn [as_str String.eqb Ascii.eqb Bool.eqb andb].
  rewrite E1, E2, E3, (utc_ok_now _ Hset), Hd; reflexivity.
Qed.





Ltac destr_some H :=
  repeat (match type of H with
          | context[match ?x with Some _ => _ | None => _ end] =>
              let E := fresh "E" in destruct x eqn:E; [|discriminate]
          end).

(** * Claims *)


(** C5 (counterexample): the stamp of a status point is read after its
    [print_time]; a status line stamped 5 ms after its [print_time] reading,
    then one read 10 s after that reading, give two status points less than
    10 s apart. *)
Lemma status_points_closer_than_interval :
  status_times (run_effects (main 10 0 two_status_lines)) = [5000000; from_secs 10] /\
  from_secs 10 - 5000000 < from_secs 10.
Proof. vm_compute; split; reflexivity. Qed.

(** C5 (amended): a status line whose check reading is before
    [print_time + interval] is dropped with no effect; when that sum is past
    chrono's range the check panics instead; the status points of a run
    carry the stamps of the iterations that wrote them, and each of these
    iterations read the clock for its check no earlier than the previous
    one's [print_time] reading plus the interval; with interval 10 and a
    status line every second for 25 s, exactly 3 points are written, at 0,
    10 and 20 s when each iteration reads the clock once, at about 0, 11 and
    22 s when [print_time] is read 1 us after the check; with an interval of
    8.25e12 s the second status line panics. *)
Theorem status_sampler (interval pt : Z) :
  (forall e evs, is_status_line (input e) = true -> throttled interval pt e = true ->
   run interval pt (e :: evs) = run interval pt evs) /\
  (forall e, is_status_line (input e) = true -> utc_ok (now_check e) = true ->
   dt_add_secs pt interval = None -> step interval pt e = Halt ChronoPanic pt []) /\
  (forall evs,
   status_times (run_effects (run interval pt evs)) =
     map now_stamp (status_iterations interval pt evs) /\
   checks_spaced (from_secs interval) (pt + from_secs interval)
                 (status_iterations interval pt evs)) /\
  status_times (run_effects (main 10 0 every_second_25)) = [0; from_secs 10; from_secs 20] /\
  status_times (run_effects (main 10 0 every_second_25_lagged))
    = [2000; from_secs 11 + 2000; from_secs 22 + 2000] /\
  run_halt (main 8250000000000 t0 [ev t0 status_line; ev (t0 + 1) status_line])
    = Some ChronoPanic.
Proof.
  split; [|split; [|split; [|split; [|split]]]].
  - intros e evs Hs Hlt; apply run_cons_next, step_status_throttled; assumption.
  - exact (step_status_overflow interval pt).
  - intro evs; split; [apply run_status_stamps|apply run_checks_spaced].
  - vm_compute; reflexivity.
  - vm_compute; reflexivity.
  - vm_compute; reflexivity.
Qed.

(** C7: every point an iteration writes, whatever the line and its kind,
    carries the clock reading taken for its stamp in that iteration. *)
Theorem point_time_is_clock (interval pt : Z) (e : event) (p : point)
  (Hin : In (Written p) (step_effects (step interval pt e))) :
  timestamp p = now_stamp e.
Proof.
  destruct (step interval pt e) as [pt' effs|why pt' effs] eqn:Hs;
    simpl in Hin; destr_step Hs; injection Hs; intros; subst; simpl in Hin;
    repeat match goal with H : _ \/ _ |- _ => destruct H end;
    try discriminate; try contradiction;
    match goal with H : Written _ = Written _ |- _ => injection H as <- end;
    branch_facts; reflexivity.
Qed.

Lemma point_time_is_clock_witness :
  In (Written (hd (Build_point "" 0 [])
                  (written (step_effects (step 10 0 (ev 7 summary_line))))))
     (step_effects (step 10 0 (ev 7 summary_line))) /\
  timestamp (hd (Build_point "" 0 [])
                (written (step_effects (step 10 0 (ev 7 summary_line))))) = 7.
Proof.
  assert (Hin : In (Written (hd (Build_point "" 0 [])
                  (written (step_effects (step 10 0 (ev 7 summary_line))))))
                   (step_effects (step 10 0 (ev 7 summary_line))))
    by (vm_compute; right; left; reflexivity).
  split; [exact Hin | exact (point_time_is_clock 10 0 (ev 7 summary_line) _ Hin)].
Defined.

(** C1: a line that is valid JSON but has no [message_type] member is not
    discarded: [.unwrap()] panics, and the summary line after it is never
    read. *)
Theorem untyped_line_panics :
  main 10 0 [ev 0 untyped_line; ev 0 summary_line] =
  {| run_effects := []; run_halt := Some (Panic unwrap_none);
     run_print_time := 0 - from_secs 10 |}.
Proof. vm_compute; reflexivity. Qed.













(** C8 (counterexample): an eligible status line that fails to decode moves
    [print_time] to the clock before the panic, and no point results. *)
Lemma print_time_moved_without_point :
  step 10 0 (ev (from_secs 20) status_line_no_files_done)
  = Halt (Panic "Parse error") (from_secs 20) [] /\ from_secs 20 <> 0.
Proof. vm_compute; split; [reflexivity | discriminate]. Qed.

(** C8 (amended): only a status line past the throttle check moves
    [print_time], to the clock reading taken after the check, before the
    line is decoded; when the loop goes on after such an iteration, exactly
    one status point was written, stamped with a separate, later reading of
    the clock; when the decode, the stamp or the write fails the process
    stops and no point was written. *)
Theorem print_time_moves_on_eligible_status (interval pt : Z) (e : event) :
  (forall pt' effs, step interval pt e = Next pt' effs -> pt' <> pt ->
   pt' = now_set e /\ is_status_line (input e) = true /\
   passes_check interval pt e = true /\ status_times effs = [now_stamp e]) /\
  (forall why pt' effs, step interval pt e = Halt why pt' effs -> pt' <> pt ->
   is_status_line (input e) = true /\ passes_check interval pt e = true /\
   pt' = now_set e /\ written effs = []).
Proof.
  split.
  - intros pt' effs Hs Hne.
    destruct (step_next_cases _ _ _ _ _ Hs) as [[-> _]|H]; [contradiction|exact H].
  - intros why pt' effs Hs Hne.
    destruct (step_halt_print_time _ _ _ _ _ _ Hs Hne) as [[H1 H2] H3].
    repeat split; try assumption.
    exact (step_halt_written _ _ _ _ _ _ Hs).
Qed.



(** * Further properties of [main] *)

Lemma written_app (a b : list effect) : written (a ++ b) = written a ++ written b.
Proof.
  induction a as [|x a IH]; [reflexivity|]; destruct x; simpl; rewrite ?IH; reflexivity.
Qed.

Lemma step_written_length (interval pt : Z) (e : event) :
  (length (written (step_effects (step interval pt e))) <= 1)%nat.
Proof.
  destruct (step interval pt e) as [pt' effs|why pt' effs] eqn:Hs; simpl.
  - destr_step Hs; injection Hs; intros; subst; simpl; auto.
  - rewrite (step_halt_written _ _ _ _ _ _ Hs); simpl; auto.
Qed.

(** Lines whose [message_type] is neither "status" nor "summary" are
    skipped. *)
Theorem other_discriminant_skipped (interval pt : Z) (e : event) (evs : list event)
  (t : string) (Hd : discriminant (input e) = Some t)
  (Hst : t <> "status") (Hsu : t <> "summary") :
  run interval pt (e :: evs) = run interval pt evs.
Proof.
  destruct (discriminant_Parsed _ _ Hd) as [m [Hin Ht]].
  apply run_cons_next; unfold step; rewrite Hin; cbn [from_str_value as_object].
  rewrite Ht; cbn [as_str].
  apply String.eqb_neq in Hst, Hsu; rewrite Hst, Hsu.
  destruct (String.eqb t "error"); reflexivity.
Qed.

Lemma other_discriminant_skipped_witness :
  run 10 0 [ev 0 error_line; ev 1 summary_line] = run 10 0 [ev 1 summary_line].
Proof.
  apply (other_discriminant_skipped 10 0 (ev 0 error_line) _ "error").
  all: vm_compute; try reflexivity; discriminate.
Defined.





(** Each line writes at most one point. *)
Theorem at_most_one_point_per_line (interval pt : Z) (evs : list event) :
  (length (written (run_effects (run interval pt evs))) <= length evs)%nat.
Proof.
  revert pt; induction evs as [|e evs IH]; intro pt; simpl; [lia|].
  pose proof (step_written_length interval pt e) as Hl.
  destruct (step interval pt e) as [pt' effs|why pt' effs]; simpl in *.
  - rewrite written_app, length_app; specialize (IH pt'); lia.
  - lia.
Qed.

Lemma field_missing_map_remove (k : string) (m : list (string * json)) :
  field k m = Missing -> map_remove k m = None.
Proof.
  induction m as [|[k' v'] m IH]; simpl; [reflexivity|].
  destruct (field k m) eqn:Hf; destruct (String.eqb k k') eqn:Hk; try discriminate.
  intros _; rewrite (IH eq_refl); reflexivity.
Qed.

Lemma field_found_map_remove (k : string) (m : list (string * json)) (v : json) :
  field k m = Found v -> map_remove k m = Some v.
Proof.
  induction m as [|[k' v'] m IH]; simpl; [discriminate|].
  destruct (field k m) as [|w|] eqn:Hf; destruct (String.eqb k k') eqn:Hk;
    try discriminate.
  - intros [= ->]; rewrite (field_missing_map_remove _ _ Hf); reflexivity.
  - intros [= ->]; rewrite IH by reflexivity; reflexivity.
Qed.

Lemma de_u64_canon (v : json) (z : Z) : de_u64 v = Some z -> de_u64 (JNum (NInt z)) = Some z.
Proof.
  destruct v as [| |[z'|]| | |]; simpl; try discriminate.
  destruct ((0 <=? z') && (z' <=? U64_MAX)) eqn:E; [|discriminate].
  intros [= <-]; rewrite E; reflexivity.
Qed.

Lemma req_u64_canon (k : string) (m : list (string * json)) (z : Z) :
  req de_u64 k m = Some z -> de_u64 (JNum (NInt z)) = Some z.
Proof. unfold req; destruct (field k m); try discriminate; apply de_u64_canon. Qed.

Lemma opt_u64_canon (k : string) (m : list (string * json)) (o : option Z) :
  opt de_u64 k m = Some o ->
  match o with Some z => de_u64 (JNum (NInt z)) = Some z | None => True end.
Proof.
  unfold opt; intro H; destruct (field k m) as [|v|].
  - injection H as <-; exact I.
  - destruct v as [| |n| | |]; [| |
      change (option_map Some (de_u64 (JNum n)) = Some o) in H| | |];
      try (simpl in H; discriminate).
    + change (Some None = Some o) in H; injection H as <-; exact I.
    + destruct (de_u64 (JNum n)) as [z|] eqn:E; [|discriminate].
      injection H as <-; exact (de_u64_canon _ _ E).
  - discriminate.
Qed.

Lemma de_u64_bool (z : Z) : de_u64 (JNum (NInt z)) = Some z -> (0 <=? z) && (z <=? U64_MAX) = true.
Proof. simpl; destruct ((0 <=? z) && (z <=? U64_MAX)); congruence. Qed.

Lemma req_string_map_remove (k : string) (m : list (string * json)) (s : string) :
  req de_string k m = Some s -> map_remove k m = Some (JStr s).
Proof.
  unfold req; destruct (field k m) as [|v|] eqn:Hf; try discriminate.
  rewrite (field_found_map_remove _ _ _ Hf).
  destruct v; simpl; try discriminate; intros [= ->]; reflexivity.
Qed.

Lemma de_SummaryMessage_parts (m : list (string * json)) (s : SummaryMessage) :
  de_SummaryMessage m = Some s ->
  req de_string "message_type" m = Some (su_message_type s) /\
  Forall (fun z => de_u64 (JNum (NInt z)) = Some z)
    [su_files_new s; su_files_changed s; su_files_unmodified s; su_dirs_new s;
     su_dirs_changed s; su_dirs_unmodified s; su_data_blobs s; su_tree_blobs s;
     su_data_added s; su_total_files_processed s; su_total_bytes_processed s].
Proof.
  unfold de_SummaryMessage; intro H; destr_some H; injection H as <-.
  split; [reflexivity|].
  repeat constructor; eapply req_u64_canon; eassumption.
Qed.

Lemma de_StatusMessage_parts (m : list (string * json)) (s : StatusMessage) :
  de_StatusMessage m = Some s ->
  req de_string "message_type" m = Some (sm_message_type s) /\
  Forall (fun z => de_u64 (JNum (NInt z)) = Some z)
    [sm_seconds_elapsed s; sm_total_files s; sm_files_done s; sm_total_bytes s;
     sm_bytes_done s] /\
  match sm_seconds_remaining s with Some z => de_u64 (JNum (NInt z)) = Some z | None => True end /\
  match sm_error_count s with Some z => de_u64 (JNum (NInt z)) = Some z | None => True end.
Proof.
  unfold de_StatusMessage; intro H; destr_some H; injection H as <-.
  split; [reflexivity|]; split; [repeat constructor; eapply req_u64_canon; eassumption|].
  split; eapply opt_u64_canon; eassumption.
Qed.

(** What an iteration writes: the point of a decoded status line or of a
    decoded summary line, stamped with the stamp reading. *)
Lemma step_written_shape (interval pt : Z) (e : event) (p : point) :
  In p (written (step_effects (step interval pt e))) ->
  exists m, input e = Parsed (JObj m) /\
  ((exists s, map_remove "message_type" m = Some (JStr "status") /\
              de_StatusMessage m = Some s /\
              p = status_into_query (status_out (now_stamp e) s) "status_message") \/
   (exists s, map_remove "message_type" m = Some (JStr "summary") /\
              de_SummaryMessage m = Some s /\
              p = summary_into_query {| uo_time := now_stamp e; uo_summary := s |}
                                     "summary_message")).
Proof.
  intro Hp.
  destruct (step interval pt e) as [pt' effs|why pt' effs] eqn:Hs; simpl in Hp;
    [|rewrite (step_halt_written _ _ _ _ _ _ Hs) in Hp; destruct Hp].
  destr_step Hs; injection Hs; intros; subst; simpl in Hp; try tauto.
  all: branch_facts.
  all: destruct Hp as [<-|[]]; eexists; split; [reflexivity|].
  - left; eexists; repeat split; eassumption.
  - right; eexists; repeat split; eassumption.
Qed.

Lemma run_written_forall (P : point -> Prop) (interval : Z) :
  (forall pt e p, In p (written (step_effects (step interval pt e))) -> P p) ->
  forall pt evs p, In p (written (run_effects (run interval pt evs))) -> P p.
Proof.
  intros Hstep pt evs; revert pt; induction evs as [|e evs IH]; intros pt p; simpl; [tauto|].
  specialize (Hstep pt e).
  destruct (step interval pt e) as [pt' effs|why pt' effs]; simpl in *.
  - rewrite written_app; intro Hin; apply in_app_or in Hin as [Hin|Hin]; eauto.
  - eauto.
Qed.

(** Every point written goes to [status_message] with [message_type]
    "status" as its first field, or to [summary_message] with
    [message_type] "summary": the typed decode reads the same
    [message_type] member the discriminant came from. *)
Theorem written_points_tagged (interval pt : Z) (evs : list event) (p : point)
  (Hp : In p (written (run_effects (run interval pt evs)))) :
  (measurement p = "status_message" /\ hd_error (fields p) = Some ("message_type", FStr "status")) \/
  (measurement p = "summary_message" /\ hd_error (fields p) = Some ("message_type", FStr "summary")).
Proof.
  revert pt evs p Hp; apply run_written_forall; intros pt e p Hp.
  destruct (step_written_shape _ _ _ _ Hp) as [m [Hin [[s [Ht [Hd ->]]]|[s [Ht [Hd ->]]]]]].
  - left; destruct (de_StatusMessage_parts _ _ Hd) as [Hmt _].
    apply req_string_map_remove in Hmt; rewrite Ht in Hmt; injection Hmt as Hmt.
    simpl; rewrite <- Hmt; split; reflexivity.
  - right; destruct (de_SummaryMessage_parts _ _ Hd) as [Hmt _].
    apply req_string_map_remove in Hmt; rewrite Ht in Hmt; injection Hmt as Hmt.
    simpl; rewrite <- Hmt; split; reflexivity.
Qed.

Lemma written_points_tagged_witness :
  (measurement (hd (Build_point "" 0 []) (written (run_effects (run 10 0 [ev 0 summary_line]))))
   = "status_message" /\
   hd_error (fields (hd (Build_point "" 0 [])
                       (written (run_effects (run 10 0 [ev 0 summary_line])))))
   = Some ("message_type", FStr "status")) \/
  (measurement (hd (Build_point "" 0 []) (written (run_effects (run 10 0 [ev 0 summary_line]))))
   = "summary_message" /\
   hd_error (fields (hd (Build_point "" 0 [])
                       (written (run_effects (run 10 0 [ev 0 summary_line])))))
   = Some ("message_type", FStr "summary")).
Proof.
  apply (written_points_tagged 10 0 [ev 0 summary_line]).
  vm_compute; left; reflexivity.
Defined.

Ltac forall_facts :=
  repeat match goal with
         | H : Forall _ (_ :: _) |- _ => apply Forall_cons_iff in H as [? H]
         | H : Forall _ [] |- _ => clear H
         | H : de_u64 (JNum (NInt _)) = Some _ |- _ => apply de_u64_bool in H
         end.

(** The summary point keeps every decoded field: read back as a JSON
    object, its fields decode to the same [SummaryMessage]. *)
Theorem summary_point_roundtrip (m : list (string * json)) (s : SummaryMessage)
  (t : Z) (name : string) (Hd : de_SummaryMessage m = Some s) :
  de_SummaryMessage (point_members (summary_into_query {| uo_time := t; uo_summary := s |} name))
  = Some s.
Proof.
  destruct (de_SummaryMessage_parts _ _ Hd) as [_ Hf]; forall_facts.
  destruct s; simpl in *.
  unfold de_SummaryMessage, req, point_members; cbn -[U64_MAX Z.leb].
  repeat match goal with H : (0 <=? _) && (_ <=? U64_MAX) = true |- _ => rewrite H end.
  reflexivity.
Qed.

Lemma summary_point_roundtrip_witness :
  de_SummaryMessage (point_members (summary_into_query
     {| uo_time := 9; uo_summary := match de_SummaryMessage summary_line_members with
                                    | Some s => s
                                    | None => Build_SummaryMessage "" 0 0 0 0 0 0 0 0 0 0 0 (NInt 0) ""
                                    end |} "summary_message"))
  = de_SummaryMessage summary_line_members.
Proof.
  apply (summary_point_roundtrip summary_line_members); vm_compute; reflexivity.
Defined.

(** The status point keeps every decoded field but [current_files]: read
    back as a JSON object, its fields decode to the status record with the
    defaults of [seconds_remaining] and [error_count] filled in and no
    [current_files]. *)
Theorem status_point_roundtrip (m : list (string * json)) (s : StatusMessage)
  (t : Z) (name : string) (Hd : de_StatusMessage m = Some s) :
  de_StatusMessage (point_members (status_into_query (status_out t s) name)) =
  Some {| sm_message_type := sm_message_type s;
          sm_seconds_elapsed := sm_seconds_elapsed s;
          sm_seconds_remaining :=
            Some (match sm_seconds_remaining s with Some x => x | None => 0 end);
          sm_percent_done := sm_percent_done s;
          sm_total_files := sm_total_files s;
          sm_files_done := sm_files_done s;
          sm_total_bytes := sm_total_bytes s;
          sm_bytes_done := sm_bytes_done s;
          sm_error_count := Some (match sm_error_count s with Some x => x | None => 0 end);
          sm_current_files := None |}.
Proof.
  destruct (de_StatusMessage_parts _ _ Hd) as [_ [Hf [Hr He]]]; forall_facts.
  destruct s as [mt se sr pd tf fd tb bd ec cf]; simpl in *.
  unfold de_StatusMessage, req, opt, point_members; cbn -[U64_MAX Z.leb].
  repeat match goal with H : (0 <=? _) && (_ <=? U64_MAX) = true |- _ => rewrite H end.
  destruct sr as [x|]; [apply de_u64_bool in Hr; rewrite Hr|];
    (destruct ec as [y|]; [apply de_u64_bool in He; rewrite He|]); reflexivity.
Qed.

Lemma status_point_roundtrip_witness :
  de_StatusMessage (point_members (status_into_query (status_out 4 status_sample)
                                    "status_message")) =
  Some {| sm_message_type := "status"; sm_seconds_elapsed := 34;
          sm_seconds_remaining := Some 0; sm_percent_done := NFloat "1.0";
          sm_total_files := 10; sm_files_done := 10; sm_total_bytes := 1000;
          sm_bytes_done := 1000; sm_error_count := Some 0; sm_current_files := None |}.
Proof.
  apply (status_point_roundtrip status_line_members status_sample 4 "status_message").
  vm_compute; reflexivity.
Defined.

(** A member the decode rejects makes the whole struct decode fail. *)
Ltac decode_none Hbad :=
  match goal with
  | |- ?de ?m = None =>
      destruct (de m) eqn:Hs; [|reflexivity]; exfalso;
      unfold de_StatusMessage, de_SummaryMessage in Hs; destr_some Hs; congruence
  end.

Lemma rejected_u64 (k : string) (m : list (string * json)) (z : Z) :
  field k m = Found (JNum (NInt z)) -> z < 0 \/ U64_MAX < z ->
  req de_u64 k m = None /\ opt de_u64 k m = None.
Proof.
  intros Hf Hz; unfold req, opt; rewrite Hf.
  assert (Hn : de_u64 (JNum (NInt z)) = None).
  { simpl; destruct (0 <=? z) eqn:E1; destruct (z <=? U64_MAX) eqn:E2; try reflexivity.
    apply Z.leb_le in E1, E2; lia. }
  unfold de_option; rewrite Hn; split; reflexivity.
Qed.

(** An integer outside [0, 2^64 - 1] in a u64 member fails the decode: a
    summary line, or a status line past the throttle check, then panics. *)
Theorem u64_out_of_range_panics (interval pt : Z) (e : event) (m : list (string * json))
  (k : string) (z : Z) (Hin : input e = Parsed (JObj m))
  (Hf : field k m = Found (JNum (NInt z))) (Hz : z < 0 \/ U64_MAX < z) :
  (In k summary_u64_keys -> map_remove "message_type" m = Some (JStr "summary") ->
   step interval pt e = Halt (Panic "Parse error") pt []) /\
  (In k status_u64_keys -> map_remove "message_type" m = Some (JStr "status") ->
   passes_check interval pt e = true -> utc_ok (now_set e) = true ->
   step interval pt e = Halt (Panic "Parse error") (now_set e) []).
Proof.
  destruct (rejected_u64 _ _ _ Hf Hz) as [Hr Ho].
  split.
  - intros Hk Ht; apply (step_summary_decode_none _ _ _ m Hin Ht).
    unfold summary_u64_keys in Hk; simpl in Hk.
    repeat destruct Hk as [<-|Hk]; try contradiction; decode_none Hr.
  - intros Hk Ht Hck Hset; apply (step_status_decode_none _ _ _ m Hin Ht Hck Hset).
    unfold status_u64_keys in Hk; simpl in Hk.
    repeat destruct Hk as [<-|Hk]; try contradiction; decode_none Hr.
Qed.

Lemma u64_out_of_range_panics_witness :
  step 10 0 (ev 1 (Parsed (JObj big_summary_members))) = Halt (Panic "Parse error") 0 [].
Proof.
  apply (proj1 (u64_out_of_range_panics 10 0 (ev 1 (Parsed (JObj big_summary_members)))
                  big_summary_members "data_added" (2 ^ 64) eq_refl
                  ltac:(vm_compute; reflexivity) ltac:(right; vm_compute; reflexivity))).
  all: vm_compute; repeat (first [reflexivity | left; reflexivity | right]).
Defined.

(** A member of a struct repeated in the line fails the typed decode (even
    [message_type], whose last copy the discriminant reads): a summary line,
    or a status line past the throttle check, then panics. *)
Theorem duplicate_member_panics (interval pt : Z) (e : event) (m : list (string * json))
  (k : string) (Hin : input e = Parsed (JObj m)) (Hf : field k m = Duplicate) :
  (In k summary_keys -> map_remove "message_type" m = Some (JStr "summary") ->
   step interval pt e = Halt (Panic "Parse error") pt []) /\
  (In k status_keys -> map_remove "message_type" m = Some (JStr "status") ->
   passes_check interval pt e = true -> utc_ok (now_set e) = true ->
   step interval pt e = Halt (Panic "Parse error") (now_set e) []).
Proof.
  assert (Hr : forall A (de : json -> option A), req de k m = None)
    by (intros; unfold req; rewrite Hf; reflexivity).
  assert (Ho : forall A (de : json -> option A), opt de k m = None)
    by (intros; unfold opt; rewrite Hf; reflexivity).
  split.
  - intros Hk Ht; apply (step_summary_decode_none _ _ _ m Hin Ht).
    unfold summary_keys in Hk; simpl in Hk.
    repeat destruct Hk as [<-|Hk]; try contradiction; decode_none Hr.
  - intros Hk Ht Hck Hset; apply (step_status_decode_none _ _ _ m Hin Ht Hck Hset).
    unfold status_keys in Hk; simpl in Hk.
    repeat destruct Hk as [<-|Hk]; try contradiction; decode_none Hr.
Qed.

Lemma duplicate_member_panics_witness :
  step 10 0 (ev 1 (Parsed (JObj (("message_type", JStr "error") :: summary_line_members))))
  = Halt (Panic "Parse error") 0 [].
Proof.
  apply (proj1 (duplicate_member_panics 10 0
                  (ev 1 (Parsed (JObj (("message_type", JStr "error") :: summary_line_members))))
                  (("message_type", JStr "error") :: summary_line_members) "message_type"
                  eq_refl ltac:(vm_compute; reflexivity))).
  all: vm_compute; repeat (first [reflexivity | left; reflexivity | right]).
Defined.

Lemma opt_u64_value (k : string) (m : list (string * json)) (o : option Z) :
  opt de_u64 k m = Some o ->
  match o with Some x => x | None => 0 end =
  match field k m with Found (JNum (NInt z)) => z | _ => 0 end.
Proof.
  unfold opt; intro H; destruct (field k m) as [|v|]; [injection H as <-; reflexivity| |discriminate].
  destruct v as [| |[z|]| | |].
  - change (Some None = Some o) in H; injection H as <-; reflexivity.
  - discriminate.
  - change (option_map Some (de_u64 (JNum (NInt z))) = Some o) in H.
    destruct (de_u64 (JNum (NInt z))) as [x|] eqn:E; [|discriminate].
    injection H as <-; simpl in E; destruct ((0 <=? z) && (z <=? U64_MAX)); congruence.
  - discriminate.
  - discriminate.
  - discriminate.
  - discriminate.
Qed.

(** The [seconds_remaining] and [error_count] the status point carries are
    the line's integer when it has one, and 0 when the member is absent or
    [null]. *)
Theorem status_optional_written (t : Z) (m : list (string * json)) (s : StatusMessage)
  (Hd : de_StatusMessage m = Some s) :
  so_seconds_remaining (status_out t s) =
    match field "seconds_remaining" m with Found (JNum (NInt z)) => z | _ => 0 end /\
  so_error_count (status_out t s) =
    match field "error_count" m with Found (JNum (NInt z)) => z | _ => 0 end.
Proof.
  unfold de_StatusMessage in Hd; destr_some Hd; injection Hd as <-; simpl.
  split; eapply opt_u64_value; eassumption.
Qed.

Lemma status_optional_written_witness :
  so_seconds_remaining (status_out 0 (match de_StatusMessage status_null_members with
                                      | Some s => s | None => status_sample end)) = 0 /\
  so_error_count (status_out 0 (match de_StatusMessage status_null_members with
                                | Some s => s | None => status_sample end)) = 3.
Proof.
  refine (status_optional_written 0 status_null_members _ _); vm_compute; reflexivity.
Defined.

Lemma field_app_other (k k' : string) (v : json) (m1 m2 : list (string * json)) :
  String.eqb k' k = false -> field k' (m1 ++ (k, v) :: m2) = field k' (m1 ++ m2).
Proof.
  intro H; induction m1 as [|[a b] m1 IH]; simpl.
  - rewrite H; destruct (field k' m2); reflexivity.
  - rewrite IH; reflexivity.
Qed.

Lemma map_remove_app_other (k k' : string) (v : json) (m1 m2 : list (string * json)) :
  String.eqb k' k = false -> map_remove k' (m1 ++ (k, v) :: m2) = map_remove k' (m1 ++ m2).
Proof.
  intro H; induction m1 as [|[a b] m1 IH]; simpl.
  - rewrite H; destruct (map_remove k' m2); reflexivity.
  - rewrite IH; reflexivity.
Qed.

(** A member that neither struct reads, wherever it stands in the line,
    changes nothing [main] does with the line. *)
Theorem unknown_member_ignored (interval pt t1 t2 t3 : Z) (ok : bool) (k : string)
  (v : json) (m1 m2 : list (string * json)) (Hk : ~ In k known_keys) :
  step interval pt {| input := Parsed (JObj (m1 ++ (k, v) :: m2)); now_check := t1;
                      now_set := t2; now_stamp := t3; write_ok := ok |} =
  step interval pt {| input := Parsed (JObj (m1 ++ m2)); now_check := t1;
                      now_set := t2; now_stamp := t3; write_ok := ok |}.
Proof.
  assert (Hne : forall k', In k' known_keys -> String.eqb k' k = false).
  { intros k' Hk'; apply String.eqb_neq; intros ->; exact (Hk Hk'). }
  assert (Hs : de_StatusMessage (m1 ++ (k, v) :: m2) = de_StatusMessage (m1 ++ m2)).
  { unfold de_StatusMessage, req, opt.
    repeat rewrite field_app_other by (apply Hne; simpl; tauto); reflexivity. }
  assert (Hu : de_SummaryMessage (m1 ++ (k, v) :: m2) = de_SummaryMessage (m1 ++ m2)).
  { unfold de_SummaryMessage, req.
    repeat rewrite field_app_other by (apply Hne; simpl; tauto); reflexivity. }
  unfold step; cbn [input from_str_value as_object now_check now_set now_stamp write_ok].
  rewrite map_remove_app_other by (apply Hne; simpl; tauto).
  rewrite Hs, Hu; reflexivity.
Qed.

Lemma unknown_member_ignored_witness :
  step 10 0 {| input := Parsed (JObj ([("message_type", JStr "summary")] ++
                                      ("snapshot", JBool true) :: tl summary_line_members));
               now_check := 1; now_set := 1; now_stamp := 1; write_ok := true |} =
  step 10 0 {| input := Parsed (JObj ([("message_type", JStr "summary")] ++
                                      tl summary_line_members));
               now_check := 1; now_set := 1; now_stamp := 1; write_ok := true |}.
Proof. apply unknown_member_ignored; vm_compute; intuition discriminate. Defined.




